(** * pybinding.chebyshev: the kernel polynomial method front end

    A shallow embedding of [pybinding/chebyshev.py]: the class
    [KernelPolynomialMethod], which forwards every call to an implementation
    object of the compiled extension module [_cpp], and the two factory
    functions [kpm] and [kpm_cuda].

    Python values that the module inspects dynamically (the [energy_range]
    argument, the argument list of the deprecated call operator) are
    values of [pyval]; a Python [float] is an IEEE binary64 number, here a
    primitive [float]; an exception is a value of [exn] carried by [result]. *)

From Stdlib Require Import ZArith QArith List Ascii String Bool Lia Floats.
From stdpp Require Import base option list gmap strings.
Import ListNotations.

Set Default Proof Using "Type".
Set Warnings "-register-all,-inexact-float".
Local Open Scope string_scope.
Local Open Scope Z_scope.

(** ** Python values and exceptions *)

Module Py.

(** A numpy [ndarray] of floats, one dimension. *)
Definition ndarray : Type := list float.

Inductive pyval : Type :=
| PyNone
| PyBool (b : bool)
| PyInt (z : Z)
| PyFloat (f : float)
| PyStr (s : string)
| PyTuple (xs : list pyval)
| PyList (xs : list pyval)
| PyArray (a : ndarray).

(** Modelled from the spec: the errors of the engine in the taxonomy of
    section 7 (the extension module that raises them is compiled code). *)
Inductive engine_error : Type :=
| InvalidOperator
| InvalidIndex
| NoMatchingSite.

Inductive exn : Type :=
| AttributeError
| TypeError
| ValueError
| Exception (msg : string)
| EngineError (e : engine_error).

Inductive result (A : Type) : Type :=
| Ok (a : A)
| Raise (e : exn).
Arguments Ok {A} a.
Arguments Raise {A} e.

Definition bind {A B : Type} (r : result A) (k : A -> result B) : result B :=
  match r with
  | Ok a => k a
  | Raise e => Raise e
  end.

Definition fmap {A B : Type} (f : A -> B) (r : result A) : result B :=
  bind r (fun a => Ok (f a)).

(** [bool(v)]: zero, the empty containers and [None] are false.  An array
    of more than one element has no truth value: numpy raises
    [ValueError]. *)
Definition float_truth (f : float) : bool := negb (PrimFloat.eqb f 0%float).

Definition truth (v : pyval) : result bool :=
  match v with
  | PyNone => Ok false
  | PyBool b => Ok b
  | PyInt z => Ok (negb (Z.eqb z 0))
  | PyFloat f => Ok (float_truth f)
  | PyStr s => Ok (negb (String.eqb s ""))
  | PyTuple xs | PyList xs => Ok (negb (Nat.eqb (List.length xs) 0))
  | PyArray [] => Ok false
  | PyArray [x] => Ok (float_truth x)
  | PyArray (_ :: _ :: _) => Raise ValueError
  end.

(** [a or b]: [a] when it is true, else [b] ([b] is a literal at both
    places the module uses it, so its evaluation cannot raise). *)
Definition py_or (a b : pyval) : result pyval :=
  bind (truth a) (fun t => Ok (if t then a else b)).

(** A Python number passed where the extension module takes a C++
    [double]: a float as it is, an integer converted; an integer that does
    not fit 63 bits, or a value that is no number, is refused. *)
Definition as_double (v : pyval) : result float :=
  match v with
  | PyFloat f => Ok f
  | PyInt z =>
      if Z.abs z <? 2 ^ 63 then
        let m := PrimFloat.of_uint63 (Uint63.of_Z (Z.abs z)) in
        Ok (if z <? 0 then PrimFloat.opp m else m)
      else Raise TypeError
  | _ => Raise TypeError
  end.

(** Binding of a call's positional and keyword arguments to the parameters
    [names] of a function without defaults: every parameter gets exactly
    one value and no argument is left over, anything else is a
    [TypeError]. *)
Fixpoint bind_from (names : list string) (args : list pyval)
    (kwargs : gmap string pyval) : result (list pyval) :=
  match names, args with
  | [], [] => if Nat.eqb (size kwargs) 0 then Ok [] else Raise TypeError
  | [], _ :: _ => Raise TypeError
  | n :: names', a :: args' =>
      match kwargs !! n with
      | Some _ => Raise TypeError
      | None => fmap (cons a) (bind_from names' args' kwargs)
      end
  | n :: names', [] =>
      match kwargs !! n with
      | Some v => fmap (cons v) (bind_from names' [] (delete n kwargs))
      | None => Raise TypeError
      end
  end.

End Py.
Import Py.

Declare Scope py_scope.
Delimit Scope py_scope with py.
Notation "x <- c1 ;; c2" := (Py.bind c1 (fun x => c2))
  (at level 100, c1 at next level, right associativity) : py_scope.
Local Open Scope py_scope.

(** ** The collaborators of the module

    [pybinding.model], [pybinding.system] and [pybinding.results] are
    imported by the front end and only passed through by it. *)

Definition complex : Type := (float * float)%type.

(** Cartesian coordinates, as exact rationals. *)
Definition Cartesian : Type := (Q * Q * Q)%type.

(** Modelled from the spec: the operator of section 3, a sparse matrix of
    dimension [op_dim] given by its entries. *)
Record Operator : Type := {
  op_dim : nat;
  op_entries : list (nat * nat * complex)
}.

(** Modelled from the spec: the geometry provider of section 6 supplies a
    Cartesian position and a sublattice label per index. *)
Record Site : Type := {
  site_position : Cartesian;
  site_sublattice : string
}.

(** Modelled from the spec: the model provider of section 6, the operator
    together with the geometry. *)
Record Model : Type := {
  hamiltonian : Operator;
  sites : list Site
}.

(** [System(impl_system)], the Python wrapper of the geometry. *)
Record System : Type := { system_impl : list Site }.

(** Modelled from the spec: the results container [results.LDOS], which
    stores an energy array and a value array as a labeled pair. *)
Record LDOS : Type := {
  ldos_energy : ndarray;
  ldos_values : ndarray
}.

(** ** chebyshev.py *)

Module Chebyshev.

(** The implementation object behind a [KernelPolynomialMethod]: a
    [_cpp.KPM] or [_cpp.KPMcuda].  It is a mutable object, so a method
    returns its outcome together with the object after the call. *)
Class KPMImpl (I : Type) : Type := {
  Deferred : Type;
  impl_model : I -> Model;
  impl_set_model : I -> Model -> I;
  impl_system : I -> list Site;
  impl_report : I -> bool -> string;
  impl_calc_greens : I -> Z -> Z -> ndarray -> float -> result (list complex) * I;
  impl_calc_ldos : I -> ndarray -> float -> Cartesian -> string -> result ndarray * I;
  impl_deferred_ldos : I -> ndarray -> float -> Cartesian -> string -> Deferred
}.

Section Interface.
Context {I : Type} `{KPMImpl I}.

(** [class KernelPolynomialMethod], [__init__] is the constructor. *)
Record KernelPolynomialMethod : Type := { impl : I }.

Definition model (self : KernelPolynomialMethod) : Model :=
  impl_model (impl self).

Definition set_model (self : KernelPolynomialMethod) (m : Model)
    : KernelPolynomialMethod :=
  {| impl := impl_set_model (impl self) m |}.

Definition system (self : KernelPolynomialMethod) : System :=
  {| system_impl := impl_system (impl self) |}.

(** [shortform] is optional and defaults to [False]. *)
Definition report (self : KernelPolynomialMethod) (shortform : option bool)
    : string :=
  impl_report (impl self) (default false shortform).

Definition calc_greens (self : KernelPolynomialMethod) (i j : Z)
    (energy : ndarray) (broadening : float)
    : result (list complex) * KernelPolynomialMethod :=
  let '(r, impl') := impl_calc_greens (impl self) i j energy broadening in
  (r, {| impl := impl' |}).

(** [sublattice] is optional and defaults to the empty string. *)
Definition calc_ldos (self : KernelPolynomialMethod) (energy : ndarray)
    (broadening : float) (position : Cartesian) (sublattice : option string)
    : result LDOS * KernelPolynomialMethod :=
  let '(ldos, impl') :=
    impl_calc_ldos (impl self) energy broadening position (default "" sublattice) in
  (Py.fmap (fun values => {| ldos_energy := energy; ldos_values := values |}) ldos,
   {| impl := impl' |}).

Definition deferred_ldos (self : KernelPolynomialMethod) (energy : ndarray)
    (broadening : float) (position : Cartesian) (sublattice : option string)
    : Deferred :=
  impl_deferred_ldos (impl self) energy broadening position (default "" sublattice).

(** [calc_greens] applied to an argument list (positional arguments and
    keyword arguments): the arguments are bound to the parameters
    [i, j, energy, broadening], then passed on to the implementation,
    which takes two integers, an array and a number. *)
Definition calc_greens_params : list string :=
  ["i"; "j"; "energy"; "broadening"].

Definition apply_calc_greens (self : KernelPolynomialMethod)
    (args : list pyval) (kwargs : gmap string pyval)
    : result (list complex) * KernelPolynomialMethod :=
  match bind_from calc_greens_params args kwargs with
  | Ok [PyInt i; PyInt j; PyArray energy; broadening] =>
      match as_double broadening with
      | Ok broadening => calc_greens self i j energy broadening
      | Raise e => (Raise e, self)
      end
  | Ok _ => (Raise TypeError, self)
  | Raise e => (Raise e, self)
  end.

(** [__call__], deprecated. *)
Definition call (self : KernelPolynomialMethod)
    (args : list pyval) (kwargs : gmap string pyval)
    : result (list complex) * KernelPolynomialMethod :=
  apply_calc_greens self args kwargs.

(** The extension module [_cpp]: the class [KPM] is always there, the
    class [KPMcuda] only when the module was compiled with CUDA.  The
    energy range reaches a constructor as the Python value given. *)
Record CppModule : Type := {
  KPM : Model -> float -> pyval -> Z -> float -> result I;
  KPMcuda : option (Model -> float -> pyval -> Z -> result I)
}.

(** [_cpp.KPMcuda]: a missing attribute raises [AttributeError]. *)
Definition getattr_KPMcuda (_cpp : CppModule)
    : result (Model -> float -> pyval -> Z -> result I) :=
  match KPMcuda _cpp with
  | Some ctor => Ok ctor
  | None => Raise AttributeError
  end.

(** The literal [(0, 0)]. *)
Definition zero_range : pyval := PyTuple [PyInt 0; PyInt 0].

Definition kpm (_cpp : CppModule) (model : Model)
    (lambda_value : option float) (energy_range : option pyval)
    (optimization_level : option Z) (lanczos_precision : option float)
    : result KernelPolynomialMethod :=
  let lambda_value := default 4.0%float lambda_value in
  let energy_range := default PyNone energy_range in
  let optimization_level := default 3 optimization_level in
  let lanczos_precision := default 0.002%float lanczos_precision in
  range <- py_or energy_range zero_range ;;
  default_implementation <-
    KPM _cpp model lambda_value range optimization_level lanczos_precision ;;
  Ok {| impl := default_implementation |}.

Definition no_cuda_message : string :=
  ("The module was compiled without CUDA support." ++ String "010"%char
   "Use a different KPM implementation or recompile the module with CUDA.")%string.

Definition kpm_cuda (_cpp : CppModule) (model : Model)
    (lambda_value : option float) (energy_range : option pyval)
    (optimization_level : option Z)
    : result KernelPolynomialMethod :=
  let lambda_value := default 4.0%float lambda_value in
  let energy_range := default PyNone energy_range in
  let optimization_level := default 1 optimization_level in
  let try :=
    ctor <- getattr_KPMcuda _cpp ;;
    range <- py_or energy_range zero_range ;;
    cuda_implementation <- ctor model lambda_value range optimization_level ;;
    Ok {| impl := cuda_implementation |} in
  match try with
  | Raise AttributeError => Raise (Exception no_cuda_message)
  | outcome => outcome
  end.

End Interface.
Arguments KernelPolynomialMethod I : clear implicits.
Arguments CppModule I : clear implicits.

End Chebyshev.

(** ** The engine behind the front end

    The classes [_cpp.KPM] and [_cpp.KPMcuda] are compiled code.  What the
    front end relies on is modelled here after the specification, with the
    floating-point kernels (bounds estimate, moment recursion, kernel
    reconstruction) left as the functions of a [Kernels] record. *)

Module Engine.

Definition bounds : Type := (float * float)%type.

(** Modelled from the spec: the statistics of section 3, a snapshot of the
    last computation (the wall time is left out). *)
Record Report : Type := {
  report_moments : nat;
  report_level : Z;
  report_bounds : bounds
}.

(** Modelled from the spec: the numerical components of sections 4.1 to
    4.4, which [_cpp] implements: the Lanczos estimate of the spectral
    bounds from the operator and a precision; the number of moments for a
    [lambda_value] and a broadening; the moment sequence of a (row, column)
    pair at an optimization level; the reconstruction of one Green's
    function value, and of one LDOS value, at one energy; and the report
    formatter of section 1. *)
Record Kernels : Type := {
  lanczos_bounds : Operator -> float -> bounds;
  moment_count : bounds -> float -> float -> nat;
  moments : Operator -> bounds -> Z -> nat -> nat -> nat -> list complex;
  greens_value : bounds -> list complex -> float -> float -> complex;
  ldos_value : bounds -> list complex -> float -> float -> float;
  format_report : option Report -> bool -> string
}.

(** Modelled from the spec: an engine, as [create] of section 6 builds it.
    [eng_range] holds the caller's energy bounds, [None] when they are to
    be estimated; [last_report] is the one mutable part. *)
Record Engine : Type := {
  eng_kernels : Kernels;
  eng_model : Model;
  eng_lambda : float;
  eng_range : option bounds;
  eng_level : Z;
  eng_precision : float;
  last_report : option Report
}.

Definition with_model (e : Engine) (m : Model) : Engine :=
  {| eng_kernels := eng_kernels e; eng_model := m; eng_lambda := eng_lambda e;
     eng_range := eng_range e; eng_level := eng_level e;
     eng_precision := eng_precision e; last_report := last_report e |}.

Definition with_report (e : Engine) (r : option Report) : Engine :=
  {| eng_kernels := eng_kernels e; eng_model := eng_model e;
     eng_lambda := eng_lambda e; eng_range := eng_range e;
     eng_level := eng_level e; eng_precision := eng_precision e;
     last_report := r |}.

(** Modelled from the spec: section 3, the spectral bounds are the
    caller's, or the Lanczos estimate of the current operator. *)
Definition engine_bounds (e : Engine) : bounds :=
  match eng_range e with
  | Some b => b
  | None => lanczos_bounds (eng_kernels e) (hamiltonian (eng_model e)) (eng_precision e)
  end.

(** Modelled from the spec: sections 4.2 and 4.3, the moments of the pair
    [(i, j)] for a broadening, with the report of the computation. *)
Definition run_moments (e : Engine) (i j : nat) (broadening : float)
    : list complex * Report :=
  let b := engine_bounds e in
  let m := moment_count (eng_kernels e) b (eng_lambda e) broadening in
  (moments (eng_kernels e) (hamiltonian (eng_model e)) b (eng_level e) m i j,
   {| report_moments := m; report_level := eng_level e; report_bounds := b |}).

Definition index_in_range (e : Engine) (i : Z) : bool :=
  (0 <=? i) && (i <? Z.of_nat (op_dim (hamiltonian (eng_model e)))).

(** Modelled from the spec: [green_element] of section 6 with the error
    propagation of section 7: an index outside [0 <= i, j < N] is an
    [InvalidIndex] error raised before the recursion; otherwise one value
    is reconstructed per requested energy. *)
Definition engine_calc_greens (e : Engine) (i j : Z) (energy : ndarray)
    (broadening : float) : result (list complex) * Engine :=
  if index_in_range e i && index_in_range e j then
    let '(mu, rep) := run_moments e (Z.to_nat i) (Z.to_nat j) broadening in
    (Ok (map (greens_value (eng_kernels e) (engine_bounds e) mu broadening) energy),
     with_report e (Some rep))
  else (Raise (EngineError InvalidIndex), e).

(** *** SiteLocator *)

Definition dist2 (p q : Cartesian) : Q :=
  let '(px, py, pz) := p in
  let '(qx, qy, qz) := q in
  ((px - qx) * (px - qx) + (py - qy) * (py - qy) + (pz - qz) * (pz - qz))%Q.

Definition Qlt_bool (a b : Q) : bool := negb (Qle_bool b a).

(** The empty label is the filter that considers any sublattice. *)
Definition matches (sublattice : string) (s : Site) : bool :=
  String.eqb sublattice "" || String.eqb (site_sublattice s) sublattice.

(** Modelled from the spec: section 4.5, a scan of the sites from index
    [k] on that keeps the matching site of least distance to [target]
    seen so far (Euclidean distances are compared by their squares). *)
Fixpoint nearest_from (target : Cartesian) (sublattice : string)
    (ss : list Site) (k : nat) (best : option (nat * Q)) : option (nat * Q) :=
  match ss with
  | [] => best
  | s :: ss' =>
      let best' :=
        if matches sublattice s then
          let d := dist2 (site_position s) target in
          match best with
          | Some (_, dmin) => if Qlt_bool d dmin then Some (k, d) else best
          | None => Some (k, d)
          end
        else best in
      nearest_from target sublattice ss' (S k) best'
  end.

(** Modelled from the spec: section 4.5, the index of the nearest matching
    site, [NoMatchingSite] if the filter excludes every site. *)
Definition find_nearest (ss : list Site) (target : Cartesian)
    (sublattice : string) : result nat :=
  match nearest_from target sublattice ss 0%nat None with
  | Some (k, _) => Ok k
  | None => Raise (EngineError NoMatchingSite)
  end.

(** Site [k] of [ss] passes the filter and no site that passes it is
    nearer to [target]. *)
Definition nearest_site (ss : list Site) (target : Cartesian)
    (sublattice : string) (k : nat) : Prop :=
  exists s, ss !! k = Some s /\ matches sublattice s = true /\
    forall j s', ss !! j = Some s' -> matches sublattice s' = true ->
      (dist2 (site_position s) target <= dist2 (site_position s') target)%Q.

(** Modelled from the spec: [ldos] of section 6, the site is located, its
    diagonal moments are computed and one LDOS value is reconstructed per
    requested energy. *)
Definition site_ldos (e : Engine) (k : nat) (energy : ndarray)
    (broadening : float) : result ndarray * Engine :=
  let '(mu, rep) := run_moments e k k broadening in
  (Ok (map (ldos_value (eng_kernels e) (engine_bounds e) mu broadening) energy),
   with_report e (Some rep)).

Definition engine_calc_ldos (e : Engine) (energy : ndarray) (broadening : float)
    (position : Cartesian) (sublattice : string) : result ndarray * Engine :=
  match find_nearest (sites (eng_model e)) position sublattice with
  | Ok k => site_ldos e k energy broadening
  | Raise err => (Raise err, e)
  end.

(** Modelled from the spec: [report] of section 6, the statistics of the
    last completed computation as text. *)
Definition engine_report (e : Engine) (shortform : bool) : string :=
  format_report (eng_kernels e) (last_report e) shortform.

(** *** ParallelDispatcher *)

(** Modelled from the spec: a deferred unit of section 4.6, the request it
    was issued for and, once it has run, the outcome of the request. *)
Record DeferredLDOS : Type := {
  def_energy : ndarray;
  def_broadening : float;
  def_position : Cartesian;
  def_sublattice : string;
  def_result : option (result ndarray)
}.

(** Modelled from the spec: [deferred_ldos] of section 6 records the
    request and computes nothing; the unit is run later on the engine it
    was issued on, which the dispatcher holds. *)
Definition engine_deferred_ldos (e : Engine) (energy : ndarray)
    (broadening : float) (position : Cartesian) (sublattice : string)
    : DeferredLDOS :=
  {| def_energy := energy; def_broadening := broadening;
     def_position := position; def_sublattice := sublattice;
     def_result := None |}.

(** Modelled from the spec: section 4.6, a unit runs the full pipeline of
    its request on the engine and keeps the outcome. *)
Definition compute (e : Engine) (u : DeferredLDOS) : DeferredLDOS * Engine :=
  let '(r, e') :=
    engine_calc_ldos e (def_energy u) (def_broadening u) (def_position u)
      (def_sublattice u) in
  ({| def_energy := def_energy u; def_broadening := def_broadening u;
      def_position := def_position u; def_sublattice := def_sublattice u;
      def_result := Some r |}, e').

(** The unit [u] once it has run on the engine [e]. *)
Definition completed (e : Engine) (u : DeferredLDOS) : DeferredLDOS :=
  fst (compute e u).

(** Two states of one engine: they differ in the last report at most. *)
Definition same_engine (e e' : Engine) : Prop :=
  with_report e None = with_report e' None.

(** Modelled from the spec: sections 4.6 and 5, the units issued on one
    engine, in the order of their requests, and that engine, which they
    share. *)
Record Dispatcher : Type := {
  shared : Engine;
  units : list DeferredLDOS
}.

(** Unit [k] runs to completion; its outcome is stored at its own place. *)
Definition complete (d : Dispatcher) (k : nat) : Dispatcher :=
  match units d !! k with
  | Some u =>
      let '(u', e') := compute (shared d) u in
      {| shared := e'; units := <[k := u']> (units d) |}
  | None => d
  end.

(** The units complete in the order [order]. *)
Definition run (order : list nat) (d : Dispatcher) : Dispatcher :=
  foldl complete d order.

#[global] Instance engine_impl : Chebyshev.KPMImpl Engine := {|
  Chebyshev.Deferred := DeferredLDOS;
  Chebyshev.impl_model := eng_model;
  Chebyshev.impl_set_model := with_model;
  Chebyshev.impl_system := fun e => sites (eng_model e);
  Chebyshev.impl_report := engine_report;
  Chebyshev.impl_calc_greens := engine_calc_greens;
  Chebyshev.impl_calc_ldos := engine_calc_ldos;
  Chebyshev.impl_deferred_ldos := engine_deferred_ldos
|}.

(** One LDOS request: the arguments of [calc_ldos] and [deferred_ldos]. *)
Record Request : Type := {
  req_energy : ndarray;
  req_broadening : float;
  req_position : Cartesian;
  req_sublattice : option string
}.

(** [deferred_ldos] issued for every request, in order. *)
Definition issue (self : Chebyshev.KernelPolynomialMethod Engine)
    (reqs : list Request) : Dispatcher :=
  {| shared := Chebyshev.impl self;
     units := map (fun r => Chebyshev.deferred_ldos self (req_energy r)
                     (req_broadening r) (req_position r) (req_sublattice r)) reqs |}.

(** [calc_ldos] issued for every request, one call after the other on the
    same object; the outcome of every call is kept. *)
Fixpoint sequential_ldos (self : Chebyshev.KernelPolynomialMethod Engine)
    (reqs : list Request) : list (result LDOS) :=
  match reqs with
  | [] => []
  | r :: reqs' =>
      let '(out, self') :=
        Chebyshev.calc_ldos self (req_energy r) (req_broadening r)
          (req_position r) (req_sublattice r) in
      out :: sequential_ldos self' reqs'
  end.

(** The outcome a unit holds, labeled with the energies of its request the
    way [calc_ldos] labels the values it gets from the engine; [None]
    while the unit has not run. *)
Definition unit_ldos (u : DeferredLDOS) : option (result LDOS) :=
  match def_result u with
  | Some r =>
      Some (Py.fmap (fun values =>
              {| ldos_energy := def_energy u; ldos_values := values |}) r)
  | None => None
  end.

(** *** Construction *)

(** Modelled from the spec: the energy bounds of [create] in section 6,
    a [(min, max)] pair; the pair [(0, 0)] that the front end passes for
    bounds that were not given asks for the Lanczos estimate. *)
Definition as_range (v : pyval) : result (option bounds) :=
  match v with
  | PyTuple [lo; hi] =>
      lo <- as_double lo ;;
      hi <- as_double hi ;;
      Ok (if PrimFloat.eqb lo 0%float && PrimFloat.eqb hi 0%float
          then None else Some (lo, hi))
  | _ => Raise TypeError
  end.

(** Modelled from the spec: [create] of section 6, for a backend given by
    its kernels. *)
Definition create (k : Kernels) (model : Model) (lambda_value : float)
    (energy_range : pyval) (optimization_level : Z) (precision : float)
    : result Engine :=
  range <- as_range energy_range ;;
  Ok {| eng_kernels := k; eng_model := model; eng_lambda := lambda_value;
        eng_range := range; eng_level := optimization_level;
        eng_precision := precision; last_report := None |}.

(** Modelled from the spec: the extension module, with the CPU backend
    and, if it was compiled with accelerator support (section 4.7), the
    GPU backend [gpu] with the precision of its bounds estimate. *)
Definition cpp_module (cpu : Kernels) (gpu : option (Kernels * float))
    : Chebyshev.CppModule Engine :=
  {| Chebyshev.KPM := create cpu;
     Chebyshev.KPMcuda :=
       match gpu with
       | Some (k, precision) =>
           Some (fun model lambda_value energy_range optimization_level =>
                   create k model lambda_value energy_range optimization_level
                     precision)
       | None => None
       end |}.

End Engine.

(** ** Sample data: a two-site model and a backend with trivial kernels *)

Module Sample.

Definition kernels : Engine.Kernels :=
  {| Engine.lanczos_bounds := fun _ _ => ((-1)%float, 1%float);
     Engine.moment_count := fun _ _ _ => 4%nat;
     Engine.moments := fun _ _ _ n _ _ => repeat (1%float, 0%float) n;
     Engine.greens_value := fun _ _ _ energy => (energy, 0%float);
     Engine.ldos_value := fun _ _ _ energy => energy;
     Engine.format_report := fun _ _ => "" |}.

Definition site_a : Site :=
  {| site_position := (0, 0, 0)%Q; site_sublattice := "A" |}.
Definition site_b : Site :=
  {| site_position := (1, 0, 0)%Q; site_sublattice := "B" |}.

Definition model : Model :=
  {| hamiltonian :=
       {| op_dim := 2;
          op_entries := [(0%nat, 1%nat, (1%float, 0%float));
                         (1%nat, 0%nat, (1%float, 0%float))] |};
     sites := [site_a; site_b] |}.

Definition engine : Engine.Engine :=
  {| Engine.eng_kernels := kernels; Engine.eng_model := model;
     Engine.eng_lambda := 4.0%float; Engine.eng_range := None;
     Engine.eng_level := 3; Engine.eng_precision := 0.002%float;
     Engine.last_report := None |}.

Definition greens : Chebyshev.KernelPolynomialMethod Engine.Engine :=
  {| Chebyshev.impl := engine |}.

Definition energy : ndarray := [(-0.5)%float; 0%float; 0.5%float].

(** The extension module compiled without CUDA, and with it. *)
Definition cpp_cpu_only : Chebyshev.CppModule Engine.Engine :=
  Engine.cpp_module kernels None.
Definition cpp_with_cuda : Chebyshev.CppModule Engine.Engine :=
  Engine.cpp_module kernels (Some (kernels, 0.002%float)).

(** Three LDOS requests; no site passes the filter of the last one. *)
Definition requests : list Engine.Request :=
  [ {| Engine.req_energy := energy; Engine.req_broadening := 0.1%float;
       Engine.req_position := (0, 0, 0)%Q; Engine.req_sublattice := None |};
    {| Engine.req_energy := [0%float]; Engine.req_broadening := 0.1%float;
       Engine.req_position := (0.9, 0, 0)%Q; Engine.req_sublattice := Some "A" |};
    {| Engine.req_energy := energy; Engine.req_broadening := 0.1%float;
       Engine.req_position := (0, 0, 0)%Q; Engine.req_sublattice := Some "C" |} ].

(** An extension module whose CUDA class is there but whose constructor
    fails on a missing attribute of its own. *)
Definition cpp_failing_cuda : Chebyshev.CppModule Engine.Engine :=
  {| Chebyshev.KPM := Engine.create kernels;
     Chebyshev.KPMcuda := Some (fun _ _ _ _ => Raise AttributeError) |}.

End Sample.

(** ** The front end: what holds for every implementation *)

Section FrontEnd.
Import Chebyshev.
Context {I : Type} `{KPMImpl I}.

Implicit Types (_cpp : CppModule I) (m : Model) (self : KernelPolynomialMethod I).

Lemma py_or_falsy (a b : pyval) : truth a = Ok false -> py_or a b = Ok b.
Proof. unfold py_or. intros ->. reflexivity. Qed.

Lemma py_or_truthy (a b : pyval) : truth a = Ok true -> py_or a b = Ok a.
Proof. unfold py_or. intros ->. reflexivity. Qed.

(** C7: called with the model alone, [kpm] behaves as with
    [lambda_value = 4.0], [energy_range = None], [optimization_level = 3]
    and [lanczos_precision = 0.002], and hands the constructor [_cpp.KPM]
    these values with the pair (0, 0) that stands for bounds that are not
    set; [kpm_cuda] behaves as with [lambda_value = 4.0],
    [energy_range = None] and [optimization_level = 1], and hands the
    constructor [_cpp.KPMcuda] these values with the same pair. *)
Theorem constructor_defaults _cpp m :
  kpm _cpp m None None None None
    = kpm _cpp m (Some 4.0%float) (Some PyNone) (Some 3) (Some 0.002%float)
  /\ kpm _cpp m None None None None
    = (e <- KPM _cpp m 4.0%float zero_range 3 0.002%float ;; Ok {| impl := e |})
  /\ kpm_cuda _cpp m None None None
    = kpm_cuda _cpp m (Some 4.0%float) (Some PyNone) (Some 1)
  /\ kpm_cuda _cpp m None None None
    = match KPMcuda _cpp with
      | Some ctor =>
          match e <- ctor m 4.0%float zero_range 1 ;; Ok {| impl := e |} with
          | Raise AttributeError => Raise (Exception no_cuda_message)
          | outcome => outcome
          end
      | None => Raise (Exception no_cuda_message)
      end.
Proof.
  repeat split; try reflexivity.
  unfold kpm_cuda, getattr_KPMcuda.
  destruct (KPMcuda _cpp) as [ctor|]; [|reflexivity]. cbn.
  destruct (ctor m 4.0%float zero_range 1) as [e|[]]; reflexivity.
Qed.

(** C9: whenever [energy_range] is [None] or any other value that is
    false, [kpm] hands the constructor the pair (0, 0); so [kpm] without
    an energy range, with [energy_range = None], with any false value and
    with the literal pair (0, 0) itself all construct the engine from the
    same arguments: the pair (0, 0) cannot be asked for as bounds of its
    own. *)
Theorem kpm_falsy_energy_range _cpp m lambda_value level precision (energy_range : pyval) :
  truth energy_range = Ok false ->
  kpm _cpp m lambda_value (Some energy_range) level precision
    = (e <- KPM _cpp m (default 4.0%float lambda_value) zero_range
             (default 3 level) (default 0.002%float precision) ;;
       Ok {| impl := e |})
  /\ kpm _cpp m lambda_value None level precision
     = kpm _cpp m lambda_value (Some PyNone) level precision
  /\ kpm _cpp m lambda_value (Some energy_range) level precision
     = kpm _cpp m lambda_value None level precision
  /\ kpm _cpp m lambda_value (Some zero_range) level precision
     = kpm _cpp m lambda_value None level precision.
Proof.
  intros Hfalse. unfold kpm. cbn [default from_option].
  rewrite (py_or_falsy _ _ Hfalse). repeat split; reflexivity.
Qed.

(** C3: when the extension module has no CUDA implementation, [kpm_cuda]
    raises the exception that reports the missing CUDA support, whatever
    its arguments are: it returns no engine, neither one of another
    backend nor a partial one. *)
Theorem kpm_cuda_unsupported _cpp m lambda_value energy_range level :
  KPMcuda _cpp = None ->
  kpm_cuda _cpp m lambda_value energy_range level = Raise (Exception no_cuda_message)
  /\ forall self, kpm_cuda _cpp m lambda_value energy_range level <> Ok self.
Proof.
  intros Hnone.
  assert (kpm_cuda _cpp m lambda_value energy_range level
          = Raise (Exception no_cuda_message)) as ->.
  { unfold kpm_cuda, getattr_KPMcuda. rewrite Hnone. reflexivity. }
  split; [reflexivity | discriminate].
Qed.

(** C10: for every list of positional arguments and every dictionary of
    keyword arguments, calling the object gives what [calc_greens] gives
    when applied to the same arguments; in particular, called with
    [i, j, energy, broadening] in this order, or with [energy] and
    [broadening] by keyword, it gives [calc_greens self i j energy
    broadening]. *)
Theorem call_is_calc_greens self (args : list pyval) (kwargs : gmap string pyval) :
  call self args kwargs = apply_calc_greens self args kwargs
  /\ (forall i j energy broadening,
        call self [PyInt i; PyInt j; PyArray energy; PyFloat broadening] ∅
        = calc_greens self i j energy broadening)
  /\ (forall i j energy broadening,
        call self [PyInt i; PyInt j]
          (<["energy" := PyArray energy]> {["broadening" := PyFloat broadening]})
        = calc_greens self i j energy broadening).
Proof.
  split; [reflexivity|]. split; intros i j energy broadening.
  - reflexivity.
  - unfold call, apply_calc_greens. vm_compute bind_from. reflexivity.
Qed.

End FrontEnd.

(** ** SiteLocator: the scan finds the nearest matching site *)

Section SiteLocator.
Import Engine.
Variables (target : Cartesian) (sublattice : string).

Implicit Types (ss : list Site) (best : option (nat * Q)).

Lemma Qlt_bool_true (a b : Q) : Qlt_bool a b = true -> (a <= b)%Q.
Proof.
  unfold Qlt_bool. intros Hlt. apply Qlt_le_weak, Qnot_le_lt.
  intros Hle. apply Qle_bool_iff in Hle. rewrite Hle in Hlt. discriminate.
Qed.

Lemma Qlt_bool_false (a b : Q) : Qlt_bool a b = false -> (b <= a)%Q.
Proof.
  unfold Qlt_bool. intros Hlt. apply Qle_bool_iff.
  destruct (Qle_bool b a); [reflexivity | discriminate].
Qed.

Lemma matches_any (s : Site) : matches "" s = true.
Proof. reflexivity. Qed.

(** The scan gives nothing exactly when it started with nothing and no
    site passes the filter. *)
Lemma nearest_from_none ss k best :
  nearest_from target sublattice ss k best = None <->
  best = None /\ forall s, s ∈ ss -> matches sublattice s = false.
Proof.
  revert k best. induction ss as [|s ss IH]; intros k best; cbn [nearest_from].
  - split; [intros ->; split; [reflexivity | intros s Hs; inversion Hs]
           | intros [-> _]; reflexivity].
  - rewrite IH. destruct (matches sublattice s) eqn:Hm.
    + split.
      * intros [Hbest _]. destruct best as [[kb db]|]; [|discriminate].
        destruct (Qlt_bool _ db); discriminate.
      * intros [_ Hall]. rewrite (Hall s) in Hm; [discriminate | left].
    + split; intros [Hbest Hall]; (split; [exact Hbest|]).
      * intros s' Hs'. inversion Hs'; subst; [exact Hm | auto].
      * intros s' Hs'. apply Hall. right. exact Hs'.
Qed.

(** What the scan gives is the candidate it started with or a matching
    site of the list, with its distance. *)
Lemma nearest_from_origin ss k best k' d' :
  nearest_from target sublattice ss k best = Some (k', d') ->
  best = Some (k', d')
  \/ exists i s, ss !! i = Some s /\ k' = (k + i)%nat
       /\ matches sublattice s = true /\ d' = dist2 (site_position s) target.
Proof.
  revert k best. induction ss as [|s ss IH]; intros k best; cbn [nearest_from].
  - intros ->. left. reflexivity.
  - intros Hscan. apply IH in Hscan as [Hbest | (i & s' & Hi & -> & Hm & ->)].
    + destruct (matches sublattice s) eqn:Hm; [|left; exact Hbest].
      assert (Some (k', d') = Some (k, dist2 (site_position s) target) ->
              exists i s0, (s :: ss) !! i = Some s0 /\ k' = (k + i)%nat
                /\ matches sublattice s0 = true
                /\ d' = dist2 (site_position s0) target) as Hhead.
      { intros [= -> ->]. exists 0%nat, s. rewrite Nat.add_0_r. auto. }
      destruct best as [[kb db]|]; [|right; apply Hhead; symmetry; exact Hbest].
      destruct (Qlt_bool _ db); [right; apply Hhead; symmetry; exact Hbest
                                | left; exact Hbest].
    + right. exists (S i), s'. rewrite Nat.add_succ_r. auto.
Qed.

(** What the scan gives is no farther than the candidate it started with
    and than every matching site of the list. *)
Lemma nearest_from_least ss k best k' d' :
  nearest_from target sublattice ss k best = Some (k', d') ->
  (forall kb db, best = Some (kb, db) -> (d' <= db)%Q)
  /\ forall i s, ss !! i = Some s -> matches sublattice s = true ->
       (d' <= dist2 (site_position s) target)%Q.
Proof.
  revert k best. induction ss as [|s ss IH]; intros k best; cbn [nearest_from].
  - intros ->. split; [intros kb db [= _ ->]; apply Qle_refl
                      | intros i s Hi; inversion Hi].
  - intros Hscan. apply IH in Hscan as [Hbest Hrest].
    destruct (matches sublattice s) eqn:Hm.
    + assert ((d' <= dist2 (site_position s) target)%Q
              /\ forall kb db, best = Some (kb, db) -> (d' <= db)%Q) as [Hhead Hold].
      { destruct best as [[kb db]|].
        - destruct (Qlt_bool _ db) eqn:Hlt.
          + pose proof (Hbest _ _ eq_refl) as Hd. split; [exact Hd|].
            intros kb' db' [= _ <-].
            eapply Qle_trans; [exact Hd | apply Qlt_bool_true, Hlt].
          + pose proof (Hbest _ _ eq_refl) as Hd. split.
            * eapply Qle_trans; [exact Hd | apply Qlt_bool_false, Hlt].
            * intros kb' db' [= _ <-]. exact Hd.
        - split; [apply (Hbest _ _ eq_refl) | discriminate]. }
      split; [exact Hold|]. intros [|i] s' Hi Hm'.
      * injection Hi as <-. exact Hhead.
      * apply (Hrest i s' Hi Hm').
    + split; [exact Hbest|]. intros [|i] s' Hi Hm'.
      * injection Hi as <-. rewrite Hm in Hm'. discriminate.
      * apply (Hrest i s' Hi Hm').
Qed.

(** [find_nearest] gives the nearest matching site. *)
Lemma find_nearest_ok ss k :
  find_nearest ss target sublattice = Ok k -> nearest_site ss target sublattice k.
Proof.
  unfold find_nearest, nearest_site.
  destruct (nearest_from target sublattice ss 0 None) as [[k' d']|] eqn:Hscan;
    [|discriminate].
  intros [= ->].
  destruct (nearest_from_origin _ _ _ _ _ Hscan)
    as [Hbest | (i & s & Hi & -> & Hm & ->)]; [discriminate|].
  exists s. split; [exact Hi|]. split; [exact Hm|].
  intros j s' Hj Hm'. apply (proj2 (nearest_from_least _ _ _ _ _ Hscan) j s' Hj Hm').
Qed.

(** [find_nearest] gives a site as soon as one passes the filter. *)
Lemma find_nearest_some ss :
  (exists s, s ∈ ss /\ matches sublattice s = true) ->
  exists k, find_nearest ss target sublattice = Ok k.
Proof.
  intros (s & Hin & Hm). unfold find_nearest.
  destruct (nearest_from target sublattice ss 0 None) as [[k d]|] eqn:Hscan.
  - exists k. reflexivity.
  - apply nearest_from_none in Hscan as [_ Hall].
    rewrite (Hall s Hin) in Hm. discriminate.
Qed.

(** [find_nearest] raises [NoMatchingSite] when no site passes the
    filter. *)
Lemma find_nearest_none ss :
  (forall s, s ∈ ss -> matches sublattice s = false) ->
  find_nearest ss target sublattice = Raise (EngineError NoMatchingSite).
Proof.
  intros Hall. unfold find_nearest.
  rewrite (proj2 (nearest_from_none ss 0 None) (conj eq_refl Hall)). reflexivity.
Qed.

End SiteLocator.

(** ** The front end over the engine *)

Section OverEngine.
Import Chebyshev Engine.

Implicit Types (self : KernelPolynomialMethod Engine) (energy : ndarray).

Lemma calc_ldos_unfold self energy broadening position sublattice :
  calc_ldos self energy broadening position sublattice
  = let '(ldos, e') :=
      engine_calc_ldos (impl self) energy broadening position (default "" sublattice) in
    (Py.fmap (fun values => {| ldos_energy := energy; ldos_values := values |}) ldos,
     {| impl := e' |}).
Proof. reflexivity. Qed.

Lemma site_ldos_ok (e : Engine) k energy broadening :
  exists values e', site_ldos e k energy broadening = (Ok values, e')
    /\ length values = length energy /\ same_engine e e'.
Proof.
  unfold site_ldos. destruct (run_moments e k k broadening) as [mu rep].
  eexists _, _. split; [reflexivity|]. split; [apply length_map | reflexivity].
Qed.

(** C5: whatever the energy array, when [calc_ldos] returns, it returns
    the pair whose energy axis is that array and whose value array has as
    many entries; and it does return as soon as one site passes the
    sublattice filter. *)
Theorem calc_ldos_labeled_pair self energy broadening position sublattice :
  (forall out self',
      calc_ldos self energy broadening position sublattice = (Ok out, self') ->
      ldos_energy out = energy /\ length (ldos_values out) = length energy)
  /\ ((exists s, s ∈ sites (model self) /\ matches (default "" sublattice) s = true) ->
      exists out self',
        calc_ldos self energy broadening position sublattice = (Ok out, self')).
Proof.
  rewrite calc_ldos_unfold. unfold engine_calc_ldos, model. cbn [impl_model engine_impl].
  split.
  - intros out self'.
    destruct (find_nearest _ position _) as [k|err]; [|discriminate].
    destruct (site_ldos_ok (impl self) k energy broadening)
      as (values & e' & -> & Hlen & _).
    cbn. intros [= <- _]. split; [reflexivity | exact Hlen].
  - intros Hsite. apply (find_nearest_some position) in Hsite as [k ->].
    destruct (site_ldos_ok (impl self) k energy broadening)
      as (values & e' & -> & _ & _).
    cbn. eexists _, _. reflexivity.
Qed.

(** C6: with [N] the dimension of the operator, [calc_greens] with
    [0 <= i < N] and [0 <= j < N] returns an array of as many values as
    there are energies; with an index out of this range it raises
    [InvalidIndex] and leaves the engine as it was, no computation having
    been recorded. *)
Theorem calc_greens_index_check self (i j : Z) energy broadening :
  ((0 <= i < Z.of_nat (op_dim (hamiltonian (model self)))
    /\ 0 <= j < Z.of_nat (op_dim (hamiltonian (model self)))) ->
   exists values self',
     calc_greens self i j energy broadening = (Ok values, self')
     /\ length values = length energy)
  /\ (~ (0 <= i < Z.of_nat (op_dim (hamiltonian (model self)))
         /\ 0 <= j < Z.of_nat (op_dim (hamiltonian (model self)))) ->
      calc_greens self i j energy broadening
      = (Raise (EngineError InvalidIndex), self)).
Proof.
  unfold calc_greens, model.
  cbn [impl_calc_greens impl_model engine_impl]. unfold engine_calc_greens.
  destruct (index_in_range (impl self) i && index_in_range (impl self) j) eqn:Hrange;
    unfold index_in_range in Hrange; split.
  - intros _. destruct (run_moments _ _ _ _) as [mu rep].
    eexists _, _. split; [reflexivity | apply length_map].
  - intros Hout. exfalso. apply Hout. lia.
  - intros Hin. exfalso. lia.
  - intros _. destruct self. reflexivity.
Qed.

(** C8: without a sublattice argument the filter is the empty label,
    which every site passes; when some site passes the filter,
    [calc_ldos] returns the LDOS of a site that passes it and is nearest
    to the position among those that do; when no site passes the filter,
    it raises [NoMatchingSite]. *)
Theorem calc_ldos_site_lookup self energy broadening position sublattice :
  (calc_ldos self energy broadening position None
   = calc_ldos self energy broadening position (Some "")
   /\ forall s, matches (default "" None) s = true)
  /\ ((exists s, s ∈ sites (model self) /\ matches (default "" sublattice) s = true) ->
      exists k, nearest_site (sites (model self)) position (default "" sublattice) k
        /\ calc_ldos self energy broadening position sublattice
           = (Py.fmap (fun values => {| ldos_energy := energy; ldos_values := values |})
                (fst (site_ldos (impl self) k energy broadening)),
              {| impl := snd (site_ldos (impl self) k energy broadening) |}))
  /\ ((forall s, s ∈ sites (model self) -> matches (default "" sublattice) s = false) ->
      calc_ldos self energy broadening position sublattice
      = (Raise (EngineError NoMatchingSite), self)).
Proof.
  split; [split; [reflexivity | intros s; reflexivity]|].
  rewrite calc_ldos_unfold. unfold engine_calc_ldos, model. cbn [impl_model engine_impl].
  split.
  - intros Hsite. apply (find_nearest_some position) in Hsite as [k Hk].
    exists k. split; [apply find_nearest_ok, Hk|]. rewrite Hk.
    destruct (site_ldos _ _ _ _). reflexivity.
  - intros Hnone. rewrite (find_nearest_none position _ _ Hnone).
    destruct self. reflexivity.
Qed.

End OverEngine.

(** ** ParallelDispatcher: the completion order does not matter *)

Section Dispatch.
Import Chebyshev Engine.

Implicit Types (e : Engine) (u : DeferredLDOS) (d : Dispatcher).

Lemma same_engine_refl e : same_engine e e.
Proof. reflexivity. Qed.

Lemma same_engine_trans e1 e2 e3 :
  same_engine e1 e2 -> same_engine e2 e3 -> same_engine e1 e3.
Proof. unfold same_engine. congruence. Qed.

(** The outcome of a request does not depend on the last report. *)
Lemma engine_calc_ldos_outcome e e' energy broadening position sublattice :
  same_engine e e' ->
  fst (engine_calc_ldos e energy broadening position sublattice)
  = fst (engine_calc_ldos e' energy broadening position sublattice).
Proof.
  unfold same_engine, with_report. destruct e, e'. cbn. intros [= -> -> -> -> -> ->].
  unfold engine_calc_ldos, site_ldos, run_moments, engine_bounds. cbn.
  destruct (find_nearest _ _ _); reflexivity.
Qed.

(** A request changes nothing of the engine but the last report. *)
Lemma engine_calc_ldos_same e energy broadening position sublattice :
  same_engine e (snd (engine_calc_ldos e energy broadening position sublattice)).
Proof.
  unfold engine_calc_ldos. destruct (find_nearest _ _ _) as [k|err].
  - destruct (site_ldos_ok e k energy broadening) as (values & e' & -> & _ & Hsame).
    exact Hsame.
  - reflexivity.
Qed.

Lemma compute_unfold e u :
  compute e u = (completed e u,
                 snd (engine_calc_ldos e (def_energy u) (def_broadening u)
                        (def_position u) (def_sublattice u))).
Proof.
  unfold completed, compute. destruct (engine_calc_ldos _ _ _ _ _). reflexivity.
Qed.

Lemma completed_unfold e u :
  completed e u
  = {| def_energy := def_energy u; def_broadening := def_broadening u;
       def_position := def_position u; def_sublattice := def_sublattice u;
       def_result := Some (fst (engine_calc_ldos e (def_energy u) (def_broadening u)
                                  (def_position u) (def_sublattice u))) |}.
Proof.
  unfold completed, compute. destruct (engine_calc_ldos _ _ _ _ _). reflexivity.
Qed.

Lemma completed_same e e' u : same_engine e e' -> completed e' u = completed e u.
Proof.
  intros Hsame. rewrite !completed_unfold.
  rewrite (engine_calc_ldos_outcome e e' _ _ _ _ Hsame). reflexivity.
Qed.

(** Running a unit a second time gives the same outcome again. *)
Lemma completed_again e e' u :
  same_engine e e' -> completed e' (completed e u) = completed e u.
Proof.
  intros Hsame. rewrite (completed_same e e' _ Hsame).
  rewrite (completed_unfold e (completed e u)), (completed_unfold e u). reflexivity.
Qed.

(** One completion: if the units in [done] hold their outcomes and the
    others are as they were issued, the same is true with [k] added after
    unit [k] has run. *)
Lemma complete_step e0 (units0 : list DeferredLDOS) (done : list nat) d k :
  same_engine e0 (shared d) ->
  (forall j, units d !! j
             = (fun u => if bool_decide (j ∈ done) then completed e0 u else u)
                 <$> units0 !! j) ->
  same_engine e0 (shared (complete d k))
  /\ forall j, units (complete d k) !! j
               = (fun u => if bool_decide (j ∈ k :: done) then completed e0 u else u)
                   <$> units0 !! j.
Proof.
  intros Hsame Hunits. unfold complete.
  destruct (units d !! k) as [u|] eqn:Hk.
  - rewrite compute_unfold. cbn [shared units]. split.
    { eapply same_engine_trans; [exact Hsame | apply engine_calc_ldos_same]. }
    intros j. destruct (decide (j = k)) as [->|Hne].
    + rewrite list_lookup_insert_eq by (eapply lookup_lt_Some; exact Hk).
      rewrite Hunits in Hk. destruct (units0 !! k) as [u0|]; [|discriminate].
      cbn in Hk. injection Hk as <-. cbn.
      rewrite (bool_decide_eq_true_2 (k ∈ k :: done))
        by (apply elem_of_cons; left; reflexivity).
      destruct (bool_decide (k ∈ done)).
      * rewrite (completed_again _ _ _ Hsame). reflexivity.
      * rewrite (completed_same _ _ _ Hsame). reflexivity.
    + rewrite list_lookup_insert_ne by congruence. rewrite Hunits.
      destruct (units0 !! j) as [u0|]; [|reflexivity]. cbn. f_equal.
      rewrite (bool_decide_ext (j ∈ k :: done) (j ∈ done)); [reflexivity|].
      rewrite elem_of_cons. tauto.
  - split; [exact Hsame|]. intros j. rewrite Hunits.
    destruct (units0 !! j) as [u0|] eqn:Hj; [|reflexivity]. cbn. f_equal.
    rewrite (bool_decide_ext (j ∈ k :: done) (j ∈ done)); [reflexivity|].
    rewrite elem_of_cons. split; [intros [->|Hin]; [|exact Hin] | tauto].
    rewrite Hunits, Hj in Hk. discriminate.
Qed.

(** Any run: the units of [order] hold their outcomes afterwards. *)
Lemma run_state e0 (units0 : list DeferredLDOS) (order done : list nat) d :
  same_engine e0 (shared d) ->
  (forall j, units d !! j
             = (fun u => if bool_decide (j ∈ done) then completed e0 u else u)
                 <$> units0 !! j) ->
  same_engine e0 (shared (run order d))
  /\ forall j, units (run order d) !! j
               = (fun u => if bool_decide (j ∈ (rev order ++ done)%list)
                           then completed e0 u else u) <$> units0 !! j.
Proof.
  revert done d. induction order as [|k order IH]; intros done d Hsame Hunits.
  - split; [exact Hsame | exact Hunits].
  - destruct (complete_step e0 units0 done d k Hsame Hunits) as [Hsame' Hunits'].
    destruct (IH (k :: done) (complete d k) Hsame' Hunits') as [Hs Hu].
    split; [exact Hs|]. intros j. cbn [rev]. rewrite <- app_assoc. apply Hu.
Qed.

(** Once every unit has run, whatever the order, each holds the outcome
    of its request on the engine they were issued on. *)
Lemma run_all e0 (units0 : list DeferredLDOS) (order : list nat) :
  order ≡ₚ seq 0 (length units0) ->
  units (run order {| shared := e0; units := units0 |}) = completed e0 <$> units0.
Proof.
  intros Hperm.
  destruct (run_state e0 units0 order [] {| shared := e0; units := units0 |})
    as [_ Hu].
  { apply same_engine_refl. }
  { intros j. cbn [units]. destruct (units0 !! j); reflexivity. }
  apply list_eq. intros j. rewrite Hu, list_lookup_fmap.
  destruct (units0 !! j) as [u0|] eqn:Hj; [|reflexivity]. cbn.
  rewrite bool_decide_eq_true_2; [reflexivity|].
  rewrite app_nil_r, list_elem_of_In, <- in_rev, <- list_elem_of_In, Hperm, elem_of_seq.
  apply lookup_lt_Some in Hj. lia.
Qed.

(** The sequential calls give, request by request, the outcome on the
    engine the first call was made on. *)
Lemma sequential_ldos_outcomes e0 (self : KernelPolynomialMethod Engine)
    (reqs : list Request) :
  same_engine e0 (impl self) ->
  sequential_ldos self reqs
  = (fun r => Py.fmap (fun values =>
                 {| ldos_energy := req_energy r; ldos_values := values |})
               (fst (engine_calc_ldos e0 (req_energy r) (req_broadening r)
                       (req_position r) (default "" (req_sublattice r))))) <$> reqs.
Proof.
  revert self. induction reqs as [|r reqs IH]; intros self Hsame; [reflexivity|].
  rewrite fmap_cons. cbn [sequential_ldos]. rewrite calc_ldos_unfold.
  pose proof (engine_calc_ldos_same (impl self) (req_energy r) (req_broadening r)
                (req_position r) (default "" (req_sublattice r))) as Hnext.
  rewrite (engine_calc_ldos_outcome e0 (impl self) _ _ _ _ Hsame).
  destruct (engine_calc_ldos (impl self) _ _ _ _) as [out e'] eqn:Hcall.
  cbn [fst snd] in *. f_equal. apply IH. cbn [impl].
  eapply same_engine_trans; [exact Hsame | exact Hnext].
Qed.

(** C4: for K requests issued through [deferred_ldos] on one object, once
    all K units have run, in whatever order they complete, the units
    hold, request by request and labeled with the energies of the
    request, the results that [calc_ldos] returns when it is called for
    the same requests one after the other. *)
Theorem deferred_ldos_as_sequential (self : KernelPolynomialMethod Engine)
    (reqs : list Request) (order : list nat) :
  order ≡ₚ seq 0 (length reqs) ->
  unit_ldos <$> units (run order (issue self reqs))
  = Some <$> sequential_ldos self reqs.
Proof.
  intros Hperm. unfold issue.
  rewrite run_all by (rewrite length_map; exact Hperm).
  rewrite (sequential_ldos_outcomes (impl self) self reqs (same_engine_refl _)).
  rewrite <- !list_fmap_compose. apply list_fmap_ext. intros _ r _. cbn.
  unfold unit_ldos. rewrite completed_unfold. reflexivity.
Qed.

End Dispatch.

(** ** The theorems at the sample data *)

Section Witnesses.
Import Chebyshev Engine.

(** The models run: a few calls evaluated. *)
Example kpm_sample :
  kpm Sample.cpp_cpu_only Sample.model None None None None = Ok Sample.greens.
Proof. reflexivity. Qed.

Example kpm_sample_range :
  Py.fmap (fun g => eng_range (impl g))
    (kpm Sample.cpp_cpu_only Sample.model None
       (Some (PyTuple [PyFloat (-3)%float; PyInt 3])) None None)
  = Ok (Some ((-3)%float, 3%float)).
Proof. vm_compute. reflexivity. Qed.

Example kpm_cuda_sample :
  Py.fmap (fun g => eng_level (impl g))
    (kpm_cuda Sample.cpp_with_cuda Sample.model None None None) = Ok 1.
Proof. reflexivity. Qed.

Example calc_ldos_sample :
  fst (calc_ldos Sample.greens Sample.energy 0.1%float (0.9, 0, 0)%Q None)
  = Ok {| ldos_energy := Sample.energy; ldos_values := Sample.energy |}.
Proof. vm_compute. reflexivity. Qed.

Example find_nearest_sample :
  find_nearest (sites Sample.model) (0.9, 0, 0)%Q "" = Ok 1%nat
  /\ find_nearest (sites Sample.model) (0.9, 0, 0)%Q "A" = Ok 0%nat
  /\ find_nearest (sites Sample.model) (0.9, 0, 0)%Q "C"
     = Raise (EngineError NoMatchingSite).
Proof. vm_compute. repeat split. Qed.

Example call_sample_too_many :
  fst (call Sample.greens
         [PyInt 0; PyInt 1; PyArray Sample.energy; PyFloat 0.1%float; PyNone] ∅)
  = Raise TypeError.
Proof. reflexivity. Qed.

Example truth_samples :
  truth (PyTuple [PyInt 0; PyInt 0]) = Ok true
  /\ truth (PyFloat (-0)%float) = Ok false
  /\ truth (PyArray Sample.energy) = Raise ValueError.
Proof. repeat split. Qed.

Lemma sample_sites_case (P : Site -> Prop) :
  P Sample.site_a -> P Sample.site_b ->
  forall s, s ∈ sites (model Sample.greens) -> P s.
Proof.
  intros Ha Hb s Hs. apply list_elem_of_In in Hs.
  destruct Hs as [<-|[<-|[]]]; assumption.
Qed.

Lemma sample_site_b_listed : Sample.site_b ∈ sites (model Sample.greens).
Proof. apply list_elem_of_In. right. left. reflexivity. Qed.

(** Without CUDA in the extension module, [kpm_cuda] on the sample model
    raises the exception of the missing CUDA support. *)
Lemma kpm_cuda_unsupported_witness :
  KPMcuda Sample.cpp_cpu_only = None
  /\ kpm_cuda Sample.cpp_cpu_only Sample.model None None None
     = Raise (Exception no_cuda_message).
Proof.
  split; [reflexivity|].
  exact (proj1 (kpm_cuda_unsupported Sample.cpp_cpu_only Sample.model
                  None None None eq_refl)).
Defined.

(** The empty tuple is false, so [kpm] with it as energy range builds
    what [kpm] builds without an energy range. *)
Lemma kpm_falsy_energy_range_witness :
  truth (PyTuple []) = Ok false
  /\ kpm Sample.cpp_cpu_only Sample.model None (Some (PyTuple [])) None None
     = kpm Sample.cpp_cpu_only Sample.model None None None None.
Proof.
  split; [reflexivity|].
  exact (proj1 (proj2 (proj2
           (kpm_falsy_energy_range Sample.cpp_cpu_only Sample.model
              None None None (PyTuple []) eq_refl)))).
Defined.

(** On the sample model every site passes the default filter, so
    [calc_ldos] returns. *)
Lemma calc_ldos_labeled_pair_witness :
  exists out self',
    calc_ldos Sample.greens Sample.energy 0.1%float (0.9, 0, 0)%Q None
    = (Ok out, self').
Proof.
  apply (proj2 (calc_ldos_labeled_pair Sample.greens Sample.energy 0.1%float
                  (0.9, 0, 0)%Q None)).
  exists Sample.site_b. split; [apply sample_site_b_listed | reflexivity].
Defined.

(** On the sample model, of dimension 2, the element (0, 1) is computed
    and the element (0, 2) is refused. *)
Lemma calc_greens_index_check_witness :
  (exists values self',
      calc_greens Sample.greens 0 1 Sample.energy 0.1%float = (Ok values, self')
      /\ length values = length Sample.energy)
  /\ calc_greens Sample.greens 0 2 Sample.energy 0.1%float
     = (Raise (EngineError InvalidIndex), Sample.greens).
Proof.
  split.
  - apply (proj1 (calc_greens_index_check Sample.greens 0 1 Sample.energy 0.1%float)).
    cbn. lia.
  - apply (proj2 (calc_greens_index_check Sample.greens 0 2 Sample.energy 0.1%float)).
    cbn. lia.
Defined.

(** On the sample model, a position next to site B is resolved to a
    nearest site under the filter "B", and the filter "C", which no site
    passes, raises [NoMatchingSite]. *)
Lemma calc_ldos_site_lookup_witness :
  (exists k, nearest_site (sites (model Sample.greens)) (0.9, 0, 0)%Q "B" k)
  /\ calc_ldos Sample.greens Sample.energy 0.1%float (0.9, 0, 0)%Q (Some "C")
     = (Raise (EngineError NoMatchingSite), Sample.greens).
Proof.
  split.
  - destruct (proj1 (proj2 (calc_ldos_site_lookup Sample.greens Sample.energy
                              0.1%float (0.9, 0, 0)%Q (Some "B")))) as (k & Hk & _).
    + exists Sample.site_b. split; [apply sample_site_b_listed | reflexivity].
    + exists k. exact Hk.
  - apply (proj2 (proj2 (calc_ldos_site_lookup Sample.greens Sample.energy
                           0.1%float (0.9, 0, 0)%Q (Some "C")))).
    apply sample_sites_case; reflexivity.
Defined.

(** Three requests whose units complete in the order 2, 0, 1. *)
Lemma deferred_ldos_as_sequential_witness :
  [2; 0; 1]%nat ≡ₚ seq 0 (length Sample.requests)
  /\ unit_ldos <$> units (run [2; 0; 1]%nat (issue Sample.greens Sample.requests))
     = Some <$> sequential_ldos Sample.greens Sample.requests.
Proof.
  assert ([2; 0; 1]%nat ≡ₚ seq 0 (length Sample.requests)) as Hperm.
  { apply (Permutation_cons_append [0; 1]%nat 2%nat). }
  split; [exact Hperm|].
  apply (deferred_ldos_as_sequential Sample.greens Sample.requests _ Hperm).
Defined.

End Witnesses.


(** ** The factory functions: what reaches the constructor and what comes back *)

Section Factories.
Import Chebyshev.
Context {I : Type} `{KPMImpl I}.

Implicit Types (_cpp : CppModule I) (m : Model) (self : KernelPolynomialMethod I).

Lemma truth_raises (v : pyval) (e : exn) :
  truth v = Raise e -> e = ValueError /\ exists a, v = PyArray a.
Proof.
  destruct v as [| | | | | | |a]; try discriminate.
  destruct a as [|x [|y a]]; try discriminate.
  intros [= <-]. split; [reflexivity | eexists; reflexivity].
Qed.

Lemma py_or_cases (a b : pyval) :
  py_or a b = Ok a \/ py_or a b = Ok b
  \/ (py_or a b = Raise ValueError /\ exists arr, a = PyArray arr).
Proof.
  unfold py_or. destruct (truth a) as [[|]|e] eqn:Ht; cbn; auto.
  destruct (truth_raises _ _ Ht) as [-> Harr]. auto.
Qed.

Lemma kpm_truthy _cpp m lambda_value level precision (energy_range : pyval) :
  truth energy_range = Ok true ->
  kpm _cpp m lambda_value (Some energy_range) level precision
  = (e <- KPM _cpp m (default 4.0%float lambda_value) energy_range
            (default 3 level) (default 0.002%float precision) ;;
     Ok {| impl := e |}).
Proof.
  intros Htrue. unfold kpm. cbn [default from_option].
  rewrite (py_or_truthy _ _ Htrue). reflexivity.
Qed.

(** An energy range that is true reaches the constructor [_cpp.KPM] as it
    was given; every pair is true, whatever it holds, so a pair of bounds
    is never replaced, also not a pair of zeros. *)
Theorem kpm_energy_range_as_given _cpp m lambda_value level precision :
  (forall energy_range : pyval,
      truth energy_range = Ok true ->
      kpm _cpp m lambda_value (Some energy_range) level precision
      = (e <- KPM _cpp m (default 4.0%float lambda_value) energy_range
                (default 3 level) (default 0.002%float precision) ;;
         Ok {| impl := e |}))
  /\ (forall lo hi : pyval,
      kpm _cpp m lambda_value (Some (PyTuple [lo; hi])) level precision
      = (e <- KPM _cpp m (default 4.0%float lambda_value) (PyTuple [lo; hi])
                (default 3 level) (default 0.002%float precision) ;;
         Ok {| impl := e |})).
Proof.
  split; [intros energy_range Htrue | intros lo hi]; apply kpm_truthy;
    [exact Htrue | reflexivity].
Qed.

(** An array of two or more numbers as energy range has no truth value:
    [kpm] raises [ValueError], whatever the extension module is, and
    [kpm_cuda] does so when the module has its CUDA class. *)
Theorem kpm_array_energy_range _cpp m lambda_value level precision (x y : float) (a : ndarray) :
  kpm _cpp m lambda_value (Some (PyArray (x :: y :: a))) level precision
  = Raise ValueError
  /\ (is_Some (KPMcuda _cpp) ->
      kpm_cuda _cpp m lambda_value (Some (PyArray (x :: y :: a))) level
      = Raise ValueError).
Proof.
  split; [reflexivity|]. intros [ctor Hctor].
  unfold kpm_cuda, getattr_KPMcuda. rewrite Hctor. reflexivity.
Qed.

(** Whatever [kpm] returns comes from the constructor: an object holds the
    implementation that [_cpp.KPM] built from the energy range given or
    from the pair (0, 0); an exception is the one the constructor raised
    for such a range, or the [ValueError] of an array used as a truth
    value. *)
Theorem kpm_outcome _cpp m lambda_value energy_range level precision :
  (forall self,
      kpm _cpp m lambda_value energy_range level precision = Ok self ->
      exists range,
        (range = default PyNone energy_range \/ range = zero_range)
        /\ KPM _cpp m (default 4.0%float lambda_value) range (default 3 level)
             (default 0.002%float precision) = Ok (impl self))
  /\ (forall e,
      kpm _cpp m lambda_value energy_range level precision = Raise e ->
      (exists range,
          (range = default PyNone energy_range \/ range = zero_range)
          /\ KPM _cpp m (default 4.0%float lambda_value) range (default 3 level)
               (default 0.002%float precision) = Raise e)
      \/ (e = ValueError /\ exists a, default PyNone energy_range = PyArray a)).
Proof.
  unfold kpm.
  destruct (py_or_cases (default PyNone energy_range) zero_range)
    as [-> | [-> | [-> Harr]]]; cbn [Py.bind]; split.
  - intros self Hok. eexists. split; [left; reflexivity|].
    destruct (KPM _cpp m _ _ _ _) as [i|e]; [|discriminate].
    injection Hok as <-. reflexivity.
  - intros e He. left. eexists. split; [left; reflexivity|].
    destruct (KPM _cpp m _ _ _ _) as [i|e']; [discriminate|].
    injection He as <-. reflexivity.
  - intros self Hok. eexists. split; [right; reflexivity|].
    destruct (KPM _cpp m _ _ _ _) as [i|e]; [|discriminate].
    injection Hok as <-. reflexivity.
  - intros e He. left. eexists. split; [right; reflexivity|].
    destruct (KPM _cpp m _ _ _ _) as [i|e']; [discriminate|].
    injection He as <-. reflexivity.
  - intros self Hok. discriminate.
  - intros e [= <-]. right. split; [reflexivity | exact Harr].
Qed.

(** [kpm_cuda] never lets an [AttributeError] out. *)
Theorem kpm_cuda_no_attribute_error _cpp m lambda_value energy_range level :
  kpm_cuda _cpp m lambda_value energy_range level <> Raise AttributeError.
Proof.
  unfold kpm_cuda.
  destruct (ctor <- getattr_KPMcuda _cpp ;; _) as [self|[]]; discriminate.
Qed.

(** With the CUDA class in the extension module, an [AttributeError] that
    its constructor raises is reported as missing CUDA support all the
    same. *)
Theorem kpm_cuda_masks_attribute_error _cpp m lambda_value energy_range level ctor range :
  KPMcuda _cpp = Some ctor ->
  py_or (default PyNone energy_range) zero_range = Ok range ->
  ctor m (default 4.0%float lambda_value) range (default 1 level) = Raise AttributeError ->
  kpm_cuda _cpp m lambda_value energy_range level = Raise (Exception no_cuda_message).
Proof.
  intros Hctor Hrange Hraise. unfold kpm_cuda, getattr_KPMcuda.
  rewrite Hctor. cbn [Py.bind]. rewrite Hrange. cbn [Py.bind].
  rewrite Hraise. reflexivity.
Qed.

(** With the CUDA class in the extension module, [kpm_cuda] returns the
    object around the implementation that the constructor built, and lets
    every exception of the constructor but [AttributeError] through as it
    is. *)
Theorem kpm_cuda_constructor_outcome _cpp m lambda_value energy_range level ctor range :
  KPMcuda _cpp = Some ctor ->
  py_or (default PyNone energy_range) zero_range = Ok range ->
  (forall i,
      ctor m (default 4.0%float lambda_value) range (default 1 level) = Ok i ->
      kpm_cuda _cpp m lambda_value energy_range level = Ok {| impl := i |})
  /\ (forall e,
      ctor m (default 4.0%float lambda_value) range (default 1 level) = Raise e ->
      e <> AttributeError ->
      kpm_cuda _cpp m lambda_value energy_range level = Raise e).
Proof.
  intros Hctor Hrange. unfold kpm_cuda, getattr_KPMcuda.
  rewrite Hctor. cbn [Py.bind]. rewrite Hrange. cbn [Py.bind].
  split; [intros i -> | intros e -> Hne]; [reflexivity|].
  destruct e; try reflexivity. contradiction.
Qed.

(** For [kpm_cuda] as for [kpm], an energy range that is false is
    replaced by the pair (0, 0): the call gives what the call without an
    energy range gives. *)
Theorem kpm_cuda_falsy_energy_range _cpp m lambda_value level (energy_range : pyval) :
  truth energy_range = Ok false ->
  kpm_cuda _cpp m lambda_value (Some energy_range) level
  = kpm_cuda _cpp m lambda_value None level.
Proof.
  intros Hfalse. unfold kpm_cuda. cbn [default from_option].
  rewrite (py_or_falsy _ _ Hfalse). reflexivity.
Qed.

End Factories.


(** ** The call operator: how an argument list is bound *)

Section CallBinding.
Import Chebyshev.

Implicit Types (names : list string) (args vs : list pyval) (kwargs : gmap string pyval).

Lemma fmap_cons_ok (a : pyval) (r : result (list pyval)) vs :
  Py.fmap (cons a) r = Ok vs -> exists vs', r = Ok vs' /\ vs = a :: vs'.
Proof.
  destruct r as [vs'|e]; [|discriminate].
  intros [= <-]. exists vs'. split; reflexivity.
Qed.

Lemma fmap_cons_raise (a : pyval) (r : result (list pyval)) e :
  Py.fmap (cons a) r = Raise e -> r = Raise e.
Proof. destruct r; [discriminate | exact id]. Qed.

(** A binding fails with [TypeError] only. *)
Lemma bind_from_raises names args kwargs e :
  bind_from names args kwargs = Raise e -> e = TypeError.
Proof.
  revert args kwargs. induction names as [|n names IH]; intros args kwargs;
    destruct args as [|a args]; cbn [bind_from].
  - destruct (Nat.eqb _ _); [discriminate | congruence].
  - congruence.
  - destruct (kwargs !! n) as [v|]; [|congruence].
    intros Hr. apply fmap_cons_raise in Hr. exact (IH _ _ Hr).
  - destruct (kwargs !! n) as [v|]; [congruence|].
    intros Hr. apply fmap_cons_raise in Hr. exact (IH _ _ Hr).
Qed.

(** A binding that succeeds used every argument for one parameter. *)
Lemma bind_from_count names args kwargs vs :
  bind_from names args kwargs = Ok vs ->
  (length args + size kwargs = length names)%nat /\ length vs = length names.
Proof.
  revert args kwargs vs. induction names as [|n names IH]; intros args kwargs vs;
    destruct args as [|a args]; cbn [bind_from].
  - destruct (Nat.eqb (size kwargs) 0) eqn:Hsize; [|discriminate].
    intros [= <-]. apply Nat.eqb_eq in Hsize. rewrite Hsize. split; reflexivity.
  - discriminate.
  - destruct (kwargs !! n) as [v|] eqn:Hn; [|discriminate].
    intros Hr. apply fmap_cons_ok in Hr as (vs' & Hr & ->).
    destruct (IH _ _ _ Hr) as [Hcount Hlen]. cbn [length] in *.
    rewrite (map_size_delete_Some n kwargs) in Hcount by (eexists; exact Hn).
    assert (size kwargs <> 0%nat) as Hpos.
    { apply map_size_ne_0_lookup. exists n. eexists. exact Hn. }
    split; lia.
  - destruct (kwargs !! n) as [v|] eqn:Hn; [discriminate|].
    intros Hr. apply fmap_cons_ok in Hr as (vs' & Hr & ->).
    destruct (IH _ _ _ Hr) as [Hcount Hlen]. cbn [length] in *. split; lia.
Qed.

(** A binding that succeeds knew every keyword. *)
Lemma bind_from_keys names args kwargs vs k :
  bind_from names args kwargs = Ok vs -> is_Some (kwargs !! k) -> k ∈ names.
Proof.
  revert args kwargs vs. induction names as [|n names IH]; intros args kwargs vs;
    destruct args as [|a args]; cbn [bind_from].
  - destruct (Nat.eqb (size kwargs) 0) eqn:Hsize; [|discriminate].
    intros _ [v Hk]. apply Nat.eqb_eq, map_size_empty_inv in Hsize.
    rewrite Hsize, lookup_empty in Hk. discriminate.
  - discriminate.
  - destruct (kwargs !! n) as [v|] eqn:Hn; [|discriminate].
    intros Hr Hk. apply fmap_cons_ok in Hr as (vs' & Hr & ->).
    destruct (decide (k = n)) as [->|Hne]; [left|].
    right. apply (IH _ _ _ Hr). rewrite lookup_delete_ne by congruence. exact Hk.
  - destruct (kwargs !! n) as [v|] eqn:Hn; [discriminate|].
    intros Hr Hk. apply fmap_cons_ok in Hr as (vs' & Hr & ->).
    right. exact (IH _ _ _ Hr Hk).
Qed.

(** A binding that succeeds gave no parameter a positional argument and a
    keyword argument. *)
Lemma bind_from_once names args kwargs vs i n :
  bind_from names args kwargs = Ok vs ->
  names !! i = Some n -> (i < length args)%nat -> kwargs !! n = None.
Proof.
  revert args kwargs vs i. induction names as [|n0 names IH];
    intros args kwargs vs i; [intros _ Hi; inversion Hi|].
  destruct args as [|a args]; cbn [bind_from length]; [intros _ _ Hlt; lia|].
  destruct (kwargs !! n0) as [v|] eqn:Hn; [discriminate|].
  intros Hr Hi Hlt. apply fmap_cons_ok in Hr as (vs' & Hr & ->).
  destruct i as [|i]; [injection Hi as <-; exact Hn|].
  apply (IH _ _ _ i Hr Hi). lia.
Qed.

(** The first [n] values given by position and the others by keyword are
    bound like all values given by position. *)
Lemma bind_from_split names vs n :
  NoDup names -> length vs = length names ->
  bind_from names (take n vs) (list_to_map (drop n (zip names vs))) = Ok vs.
Proof.
  intros Hnodup. revert vs n. induction Hnodup as [|x names Hx Hnodup IH];
    intros vs n Hlen; destruct vs as [|v vs]; try discriminate.
  - rewrite take_nil. destruct n; reflexivity.
  - injection Hlen as Hlen.
    assert (forall j, (list_to_map (drop j (zip names vs)) : gmap string pyval) !! x = None)
      as Hfresh.
    { intros j. apply not_elem_of_list_to_map_1.
      rewrite fmap_drop, fst_zip by lia.
      intros Hin. apply Hx. exact (subseteq_drop j names x Hin). }
    destruct n as [|n]; cbn [take drop zip zip_with bind_from].
    + rewrite list_to_map_cons, lookup_insert_eq.
      rewrite delete_insert_id by apply (Hfresh 0%nat).
      pose proof (IH vs 0%nat Hlen) as IH0. rewrite take_0, drop_0 in IH0.
      rewrite IH0. reflexivity.
    + rewrite (Hfresh n), (IH vs n Hlen). reflexivity.
Qed.

Lemma calc_greens_params_nodup : NoDup calc_greens_params.
Proof. apply (bool_decide_unpack _). vm_compute. exact I. Qed.

Context {I : Type} `{KPMImpl I}.
Implicit Types (self : KernelPolynomialMethod I).

Lemma call_not_bound self args kwargs :
  (forall vs, bind_from calc_greens_params args kwargs <> Ok vs) ->
  call self args kwargs = (Raise TypeError, self).
Proof.
  intros Hnot. unfold call, apply_calc_greens.
  destruct (bind_from calc_greens_params args kwargs) as [vs|e] eqn:Hbind.
  - destruct (Hnot vs eq_refl).
  - rewrite (bind_from_raises _ _ _ _ Hbind). reflexivity.
Qed.

(** Called with a number of arguments, positional and keyword together,
    other than four, the object raises [TypeError] and is left as it
    was. *)
Theorem call_arity self args kwargs :
  (length args + size kwargs <> 4)%nat ->
  call self args kwargs = (Raise TypeError, self).
Proof.
  intros Hcount. apply call_not_bound. intros vs Hbind.
  apply bind_from_count in Hbind as [Hargs _]. apply Hcount. exact Hargs.
Qed.

(** Called with a keyword that is none of [i], [j], [energy] and
    [broadening], the object raises [TypeError] and is left as it was. *)
Theorem call_unexpected_keyword self args kwargs (k : string) :
  k ∉ calc_greens_params -> is_Some (kwargs !! k) ->
  call self args kwargs = (Raise TypeError, self).
Proof.
  intros Hk Hsome. apply call_not_bound. intros vs Hbind.
  apply Hk. exact (bind_from_keys _ _ _ _ _ Hbind Hsome).
Qed.

(** Called with a parameter given both by position and by keyword, the
    object raises [TypeError] and is left as it was. *)
Theorem call_multiple_values self args kwargs (i : nat) (n : string) :
  calc_greens_params !! i = Some n -> (i < length args)%nat ->
  is_Some (kwargs !! n) ->
  call self args kwargs = (Raise TypeError, self).
Proof.
  intros Hi Hlt [v Hsome]. apply call_not_bound. intros vs Hbind.
  rewrite (bind_from_once _ _ _ _ _ _ Hbind Hi Hlt) in Hsome. discriminate.
Qed.

(** The four arguments may be split at any place into positional ones and
    keyword ones: the call gives what the call with all four by position
    gives. *)
Theorem call_keywords self (vi vj venergy vbroadening : pyval) (n : nat) :
  call self (take n [vi; vj; venergy; vbroadening])
    (list_to_map (drop n (zip calc_greens_params [vi; vj; venergy; vbroadening])))
  = call self [vi; vj; venergy; vbroadening] ∅.
Proof.
  unfold call, apply_calc_greens.
  rewrite (bind_from_split calc_greens_params [vi; vj; venergy; vbroadening] n
             calc_greens_params_nodup eq_refl).
  reflexivity.
Qed.

End CallBinding.


(** ** calc_ldos over any implementation *)

Section Forwarding.
Import Chebyshev.
Context {I : Type} `{KPMImpl I}.

Implicit Types (self : KernelPolynomialMethod I) (energy : ndarray).

(** Whatever the implementation is, [calc_ldos] returns a result exactly
    when the implementation returns values for the same energies,
    broadening and position and for the sublattice given, or the empty
    label without one: the result then pairs the caller's energies with
    these values, unchanged; an exception of the implementation comes out
    as it is; and the object afterwards holds the implementation as the
    call left it. *)
Theorem calc_ldos_outcome self energy broadening position sublattice :
  (forall out self',
      calc_ldos self energy broadening position sublattice = (Ok out, self') ->
      ldos_energy out = energy
      /\ impl_calc_ldos (impl self) energy broadening position (default "" sublattice)
         = (Ok (ldos_values out), impl self'))
  /\ (forall e self',
      calc_ldos self energy broadening position sublattice = (Raise e, self') ->
      impl_calc_ldos (impl self) energy broadening position (default "" sublattice)
      = (Raise e, impl self'))
  /\ (forall r i',
      impl_calc_ldos (impl self) energy broadening position (default "" sublattice)
      = (r, i') ->
      exists r', calc_ldos self energy broadening position sublattice
                 = (r', {| impl := i' |})).
Proof.
  unfold calc_ldos.
  destruct (impl_calc_ldos (impl self) energy broadening position _) as [[values|e] i'].
  - split; [|split].
    + intros out self' [= <- <-]. split; reflexivity.
    + intros e self'. discriminate.
    + intros r i'' [= <- <-]. eexists. reflexivity.
  - split; [|split].
    + intros out self'. discriminate.
    + intros e' self' [= <- <-]. reflexivity.
    + intros r i'' [= <- <-]. eexists. reflexivity.
Qed.

End Forwarding.

(** ** These theorems at the sample data *)

Section MoreWitnesses.
Import Chebyshev Engine.

Lemma kpm_energy_range_as_given_witness :
  truth (PyTuple [PyFloat (-3)%float; PyFloat 3%float]) = Ok true
  /\ Py.fmap (fun g => eng_range (impl g))
       (kpm Sample.cpp_cpu_only Sample.model None
          (Some (PyTuple [PyFloat (-3)%float; PyFloat 3%float])) None None)
     = Ok (Some ((-3)%float, 3%float)).
Proof.
  split; [reflexivity|].
  rewrite (proj1 (kpm_energy_range_as_given Sample.cpp_cpu_only Sample.model
                    None None None)
             (PyTuple [PyFloat (-3)%float; PyFloat 3%float]) eq_refl).
  vm_compute. reflexivity.
Defined.

Lemma kpm_array_energy_range_witness :
  is_Some (KPMcuda Sample.cpp_with_cuda)
  /\ kpm_cuda Sample.cpp_with_cuda Sample.model None
       (Some (PyArray [(-3)%float; 3%float])) None
     = Raise ValueError.
Proof.
  assert (is_Some (KPMcuda Sample.cpp_with_cuda)) as Hcuda.
  { eexists. reflexivity. }
  split; [exact Hcuda|].
  exact (proj2 (kpm_array_energy_range Sample.cpp_with_cuda Sample.model None None None
                  (-3)%float 3%float []) Hcuda).
Defined.

Lemma kpm_outcome_witness :
  kpm Sample.cpp_cpu_only Sample.model None None None None = Ok Sample.greens
  /\ exists range,
       (range = PyNone \/ range = zero_range)
       /\ KPM Sample.cpp_cpu_only Sample.model 4.0%float range 3 0.002%float
          = Ok Sample.engine.
Proof.
  split; [reflexivity|].
  exact (proj1 (kpm_outcome Sample.cpp_cpu_only Sample.model None None None None)
           Sample.greens eq_refl).
Defined.

Lemma kpm_cuda_masks_attribute_error_witness :
  is_Some (KPMcuda Sample.cpp_failing_cuda)
  /\ kpm_cuda Sample.cpp_failing_cuda Sample.model None None None
     = Raise (Exception no_cuda_message).
Proof.
  split; [eexists; reflexivity|].
  exact (kpm_cuda_masks_attribute_error Sample.cpp_failing_cuda Sample.model
           None None None _ zero_range eq_refl eq_refl eq_refl).
Defined.

Lemma kpm_cuda_constructor_outcome_witness :
  exists e, kpm_cuda Sample.cpp_with_cuda Sample.model None None (Some 2)
            = Ok {| impl := e |}
            /\ eng_level e = 2 /\ eng_range e = None.
Proof.
  eexists. split.
  - apply (proj1 (kpm_cuda_constructor_outcome Sample.cpp_with_cuda Sample.model
                    None None (Some 2) _ zero_range eq_refl eq_refl)).
    reflexivity.
  - split; reflexivity.
Defined.

Lemma kpm_cuda_falsy_energy_range_witness :
  truth (PyList []) = Ok false
  /\ kpm_cuda Sample.cpp_with_cuda Sample.model None (Some (PyList [])) None
     = kpm_cuda Sample.cpp_with_cuda Sample.model None None None.
Proof.
  split; [reflexivity|].
  exact (kpm_cuda_falsy_energy_range Sample.cpp_with_cuda Sample.model None None
           (PyList []) eq_refl).
Defined.

Lemma call_arity_witness :
  call Sample.greens [PyInt 0; PyInt 1; PyArray Sample.energy] ∅
  = (Raise TypeError, Sample.greens).
Proof.
  apply (call_arity Sample.greens [PyInt 0; PyInt 1; PyArray Sample.energy] ∅).
  rewrite map_size_empty. cbn. lia.
Defined.

Lemma call_unexpected_keyword_witness :
  call Sample.greens [PyInt 0; PyInt 1; PyArray Sample.energy]
    {["sublattice" := PyStr "A"]}
  = (Raise TypeError, Sample.greens).
Proof.
  apply (call_unexpected_keyword Sample.greens _ _ "sublattice").
  - apply (bool_decide_unpack _). vm_compute. exact I.
  - eexists. apply lookup_singleton_eq.
Defined.

Lemma call_multiple_values_witness :
  call Sample.greens [PyInt 0; PyInt 1; PyArray Sample.energy]
    {["j" := PyInt 0]}
  = (Raise TypeError, Sample.greens).
Proof.
  apply (call_multiple_values Sample.greens _ _ 1%nat "j").
  - reflexivity.
  - cbn. lia.
  - eexists. apply lookup_singleton_eq.
Defined.

Lemma calc_ldos_outcome_witness :
  impl_calc_ldos Sample.engine Sample.energy 0.1%float (0, 0, 0)%Q "C"
  = (Raise (EngineError NoMatchingSite), Sample.engine).
Proof.
  exact (proj1 (proj2 (calc_ldos_outcome Sample.greens Sample.energy 0.1%float
                         (0, 0, 0)%Q (Some "C")))
           (EngineError NoMatchingSite) Sample.greens eq_refl).
Defined.

End MoreWitnesses.


(** ** kpm_cuda: where its outcome comes from *)

Section CudaOutcome.
Import Chebyshev.
Context {I : Type} `{KPMImpl I}.

Implicit Types (_cpp : CppModule I) (m : Model) (self : KernelPolynomialMethod I).

(** An object that [kpm_cuda] returns holds the implementation that the
    CUDA class of the extension module built, from the energy range given
    or from the pair (0, 0): without that class no object is returned.  An
    exception that [kpm_cuda] raises is the report of missing CUDA support,
    or the one the CUDA constructor raised, or the [ValueError] of an array
    used as a truth value. *)
Theorem kpm_cuda_outcome _cpp m lambda_value energy_range level :
  (forall self,
      kpm_cuda _cpp m lambda_value energy_range level = Ok self ->
      exists ctor range,
        KPMcuda _cpp = Some ctor
        /\ (range = default PyNone energy_range \/ range = zero_range)
        /\ ctor m (default 4.0%float lambda_value) range (default 1 level)
           = Ok (impl self))
  /\ (forall e,
      kpm_cuda _cpp m lambda_value energy_range level = Raise e ->
      e = Exception no_cuda_message
      \/ (e = ValueError /\ exists a, default PyNone energy_range = PyArray a)
      \/ exists ctor range,
           KPMcuda _cpp = Some ctor
           /\ (range = default PyNone energy_range \/ range = zero_range)
           /\ ctor m (default 4.0%float lambda_value) range (default 1 level)
              = Raise e).
Proof.
  unfold kpm_cuda, getattr_KPMcuda.
  destruct (KPMcuda _cpp) as [ctor|]; cbn [Py.bind];
    [|split; [intros self; discriminate | intros e [= <-]; left; reflexivity]].
  destruct (py_or_cases (default PyNone energy_range) zero_range)
    as [-> | [-> | [-> Harr]]]; cbn [Py.bind].
  - destruct (ctor m _ _ _) as [i|e0] eqn:Hc; cbn [Py.bind]; split.
    + intros self [= <-]. exists ctor. eexists. split; [reflexivity|].
      split; [left; reflexivity | exact Hc].
    + discriminate.
    + intros self Hself. destruct e0; discriminate.
    + intros e He.
      destruct e0; injection He as <-; [left; reflexivity | right; right ..];
        (exists ctor; eexists; split; [reflexivity|];
         split; [left; reflexivity | exact Hc]).
  - destruct (ctor m _ _ _) as [i|e0] eqn:Hc; cbn [Py.bind]; split.
    + intros self [= <-]. exists ctor. eexists. split; [reflexivity|].
      split; [right; reflexivity | exact Hc].
    + discriminate.
    + intros self Hself. destruct e0; discriminate.
    + intros e He.
      destruct e0; injection He as <-; [left; reflexivity | right; right ..];
        (exists ctor; eexists; split; [reflexivity|];
         split; [right; reflexivity | exact Hc]).
  - split; [intros self; discriminate|].
    intros e [= <-]. right. left. split; [reflexivity | exact Harr].
Qed.

End CudaOutcome.

Section CudaOutcomeWitness.
Import Chebyshev Engine.

Lemma kpm_cuda_outcome_witness :
  kpm_cuda Sample.cpp_with_cuda Sample.model None None (Some 3) = Ok Sample.greens
  /\ exists ctor range,
       KPMcuda Sample.cpp_with_cuda = Some ctor
       /\ (range = PyNone \/ range = zero_range)
       /\ ctor Sample.model 4.0%float range 3 = Ok Sample.engine.
Proof.
  split; [reflexivity|].
  exact (proj1 (kpm_cuda_outcome Sample.cpp_with_cuda Sample.model None None (Some 3))
           Sample.greens eq_refl).
Defined.

End CudaOutcomeWitness.
